(** * eSRO (emu2): zone engine, gateway states, data-file parsers, IP filter

    A shallow embedding of

      - [AgentServer/zone.hpp]
      - [GatewayServer/server_connection.hpp]
      - [khamaileon/src/parser/levelgold.cpp]
      - [khamaileon/src/parser/refmappingshopwithtab.cpp]
      - [AgentServer/query/ip_query.cpp]

    ([AgentServer/query/hotkeys_query.hpp] only declares the hotkey query
    functors; nothing below depends on them.)

    Fixed-width integers are [Z] (or [N] for identifiers) with their
    wrap-around written out, [std::string] is [string], [std::vector] is
    [list], [boost::unordered_map] is stdpp's [gmap].  Out-of-range
    [operator[]] is an explicit fault of the parser monad. *)

From Stdlib Require Import ZArith QArith Lia List String Ascii.
From stdpp Require Import gmap.

Local Open Scope Z_scope.

(** ** Fixed-width integer conversions *)

Module Int.

Definition to_uint8 (z : Z) : Z := z mod 2 ^ 8.
Definition to_uint16 (z : Z) : Z := z mod 2 ^ 16.

(** Two's-complement reading of the low 32 bits. *)
Definition to_int32 (z : Z) : Z := (z + 2 ^ 31) mod 2 ^ 32 - 2 ^ 31.

Definition LONG_MAX : Z := 2 ^ 63 - 1.
Definition LONG_MIN : Z := - 2 ^ 63.

Definition saturate_long (z : Z) : Z := Z.max LONG_MIN (Z.min LONG_MAX z).

End Int.

(** ** [atoi] from <stdlib.h>

    Both parsers call [atoi(s.c_str())].  [atoi] skips leading white space,
    takes an optional sign and reads decimal digits up to the first
    character that is not one (the terminating NUL of [c_str()] included).
    The C standard leaves the result undefined when the number does not fit
    an [int]; the definition follows the usual [(int) strtol (s, NULL, 10)]
    on an LP64 platform: [strtol] saturates at the range of [long] and the
    cast keeps the low 32 bits. *)

Module Libc.

Definition isspace (c : ascii) : bool :=
  match nat_of_ascii c with
  | 32%nat | 9%nat | 10%nat | 11%nat | 12%nat | 13%nat => true
  | _ => false
  end.

Definition digit_value (c : ascii) : option Z :=
  let n := Z.of_nat (nat_of_ascii c) in
  if (48 <=? n) && (n <=? 57) then Some (n - 48) else None.

Fixpoint skip_spaces (s : string) : string :=
  match s with
  | String c rest => if isspace c then skip_spaces rest else s
  | EmptyString => s
  end.

Fixpoint read_digits (acc : Z) (s : string) : Z :=
  match s with
  | String c rest =>
      match digit_value c with
      | Some d => read_digits (10 * acc + d) rest
      | None => acc
      end
  | EmptyString => acc
  end.

Definition strtol (s : string) : Z :=
  match skip_spaces s with
  | String "-"%char rest => Int.saturate_long (- read_digits 0 rest)
  | String "+"%char rest => Int.saturate_long (read_digits 0 rest)
  | body => Int.saturate_long (read_digits 0 body)
  end.

Definition atoi (s : string) : Z := Int.to_int32 (strtol s).

End Libc.

(** ** The data-file parsers (khamaileon)

    A parser receives the fields of one line as [entries] and a callback
    [func].  The embedding threads the local [idx], the list of subscripts
    read from [entries] and the list of values handed to [func] through a
    state monad of its own; [entries[i]] with [i] past the end (undefined
    behaviour of [std::vector::operator[]]) stops the run with
    [OutOfRange i]. *)

Module Parser.

Record pstate (V : Type) : Type := mk_pstate {
  idx : nat;            (* size_t idx *)
  reads : list nat;     (* subscripts of [entries] read so far *)
  calls : list V        (* arguments [func] was called with, in order *)
}.
Arguments mk_pstate {V} _ _ _.
Arguments idx {V} _.
Arguments reads {V} _.
Arguments calls {V} _.

Inductive presult (V X : Type) : Type :=
| Ok (x : X) (s : pstate V)
| OutOfRange (i : nat) (s : pstate V).
Arguments Ok {V X} _ _.
Arguments OutOfRange {V X} _ _.

Definition parser (V X : Type) : Type := pstate V -> presult V X.

#[global] Instance parser_ret {V} : MRet (parser V) :=
  fun X x s => Ok x s.

#[global] Instance parser_bind {V} : MBind (parser V) :=
  fun X Y k m s =>
    match m s with
    | Ok x s' => k x s'
    | OutOfRange i s' => OutOfRange i s'
    end.

(** [idx++] *)
Definition post_increment {V} : parser V nat :=
  fun s => Ok (idx s) (mk_pstate (S (idx s)) (reads s) (calls s)).

(** [entries[i]] *)
Definition subscript {V} (entries : list string) (i : nat) : parser V string :=
  fun s =>
    match entries !! i with
    | Some e => Ok e (mk_pstate (idx s) (reads s ++ [i]) (calls s))
    | None => OutOfRange i s
    end.

(** [func(v)] *)
Definition invoke {V} (v : V) : parser V unit :=
  fun s => Ok tt (mk_pstate (idx s) (reads s) (calls s ++ [v])).

Definition start {V} : pstate V := mk_pstate 0 [] [].

Definition run {V X} (m : parser V X) : presult V X := m start.

(** What a run did to the outside: the calls of [func] and the
    subscripts read. *)
Definition calls_of {V X} (r : presult V X) : list V :=
  match r with
  | Ok _ s => calls s
  | OutOfRange _ s => calls s
  end.

Definition reads_of {V X} (r : presult V X) : list nat :=
  match r with
  | Ok _ s => reads s
  | OutOfRange _ s => reads s
  end.

(** levelgold.cpp *)
Definition ParserLevelgold (entries : list string) : parser (Z * Z) unit :=
  i0 ← post_increment;
  e0 ← subscript entries i0;
  let first := Int.to_uint8 (Libc.atoi e0) in
  i1 ← post_increment;
  e1 ← subscript entries i1;
  let second := Int.to_uint16 (Libc.atoi e1) in
  invoke (first, second).

(** refmappingshopwithtab.cpp *)
Definition ParserRefmappingshopwithtab (entries : list string)
  : parser (string * string) unit :=
  i0 ← post_increment;
  e0 ← subscript entries i0;
  if negb (Libc.atoi e0 =? 1) then mret tt else
  i1 ← post_increment;
  e1 ← subscript entries i1;
  if negb (Libc.atoi e1 =? 4) then mret tt else
  i2 ← post_increment;
  first ← subscript entries i2;
  i3 ← post_increment;
  second ← subscript entries i3;
  invoke (first, second).

End Parser.

(** ** Gateway connection states (server_connection.hpp) *)

Module srv.

Inductive CONNECTION_STATES : Set :=
| STATE_HANDSHAKE
| STATE_VERSION
| STATE_LOGIN.

(** The value of an enumerator: none has an initialiser, so they count
    from zero in declaration order. *)
Definition enumerator (s : CONNECTION_STATES) : Z :=
  match s with
  | STATE_HANDSHAKE => 0
  | STATE_VERSION => 1
  | STATE_LOGIN => 2
  end.

Definition all_states : list CONNECTION_STATES :=
  [STATE_HANDSHAKE; STATE_VERSION; STATE_LOGIN].

#[global] Instance CONNECTION_STATES_eq_dec : EqDecision CONNECTION_STATES.
Proof. solve_decision. Defined.

End srv.

(** ** The IP filter query (ip_query.cpp)

    [mysqlpp] is outside the repository.  A connection is the server's
    answer to a statement (the affected-row count the query object reports
    after [exec]) together with the log of the statements executed on it; a
    query object is its text buffer and the count of the last [exec]. *)

Module DB.

Record Connection : Type := mk_connection {
  server : string -> N;        (* affected-row count reported for a statement *)
  executed : list string       (* statements sent so far, oldest first *)
}.

Record Query : Type := mk_query {
  text : string;
  reported : N
}.

(** [conn.query()] *)
Definition query (conn : Connection) : Query := mk_query EmptyString 0.

(** [query << s] *)
Definition put (q : Query) (s : string) : Query :=
  mk_query (text q ++ s) (reported q).

(** What [mysql_real_escape_string] does to one character: NUL, newline,
    carriage return, Ctrl-Z, both quotes and the backslash get a
    backslash in front. *)
Definition backslash : ascii := ascii_of_nat 92.

Definition escaped (c : ascii) : string :=
  String backslash (String c EmptyString).

Definition escape_char (c : ascii) : string :=
  match nat_of_ascii c with
  | 0%nat => escaped "0"
  | 10%nat => escaped "n"
  | 13%nat => escaped "r"
  | 26%nat => escaped "Z"
  | 34%nat | 39%nat | 92%nat => escaped c
  | _ => String c EmptyString
  end.

Fixpoint escape (s : string) : string :=
  match s with
  | EmptyString => EmptyString
  | String c rest => escape_char c ++ escape rest
  end.

(** [query << mysqlpp::quote << s]: the next item is escaped and put
    between single quotes. *)
Definition put_quoted (q : Query) (s : string) : Query :=
  put q ("'" ++ escape s ++ "'").

(** [query.exec()]: the statement goes to the server, the query object
    keeps what the server reported.  The caller drops [exec]'s own
    result. *)
Definition exec (q : Query) (conn : Connection) : Query * Connection :=
  (mk_query (text q) (server conn (text q)),
   mk_connection (server conn) (executed conn ++ [text q])).

(** [query.affected_rows()] *)
Definition affected_rows (q : Query) : N := reported q.

Module IP.

(** The statement the filter is meant to send, written out. *)
Definition select_text (ip : string) : string :=
  "select * from ip_filter where ip = " ++ "'" ++ escape ip ++ "'".

(** [Filter::operator()] *)
Definition Filter (conn : Connection) (IP : string) : bool * Connection :=
  let query0 := query conn in
  let query1 := put_quoted (put query0 "select * from ip_filter where ip = ") IP in
  let '(query2, conn') := exec query1 conn in
  if negb (affected_rows query2 =? 0)%N then (true, conn') else (false, conn').

End IP.

End DB.

(** ** What the MySQL client reports

    [Query::exec] is a thin wrapper around [mysql_real_query] and
    [Query::affected_rows] around [mysql_affected_rows].  By the client
    library's documentation [mysql_affected_rows] reports
    [(my_ulonglong) -1] when the statement failed and, for a SELECT, when it
    is called before the result was stored with [mysql_store_result];
    [exec] never stores a result.  Only for a statement that changes rows
    does it report their number. *)

Module MySQL.

Definition MINUS_ONE : N := 2 ^ 64 - 1.

(** The statement returns a result set. *)
Definition is_select (statement : string) : bool :=
  String.prefix "select " statement.

(** How a statement that is not a SELECT ends on the server. *)
Inductive outcome : Set :=
| Failed
| Changed (rows : N).

Definition affected_rows_after_exec (other : string -> outcome) (statement : string) : N :=
  if is_select statement then MINUS_ONE
  else match other statement with
       | Failed => MINUS_ONE
       | Changed rows => rows
       end.

(** A fresh connection to a server whose [ip_filter] table holds the
    given addresses.  The rows reach the client only through the result
    set of a SELECT, which [exec] leaves on the server: the count the
    query object reports does not depend on them. *)
Definition connection (ip_filter : list string) (other : string -> outcome)
  : DB.Connection :=
  DB.mk_connection (affected_rows_after_exec other) [].

(** Whether a row of [ip_filter] matches the address: what the select of
    the filter asks the server. *)
Definition listed (ip_filter : list string) (ip : string) : bool :=
  existsb (String.eqb ip) ip_filter.

End MySQL.

(** ** The zone engine (zone.hpp)

    The header declares the data and the signatures; coord.hpp, the
    entity classes, the navigation mesh and the member functions' bodies
    (zone.cpp) are not part of the sources.  What is taken from the header
    is marked as such; every body is modelled from the specification. *)

Module Zones.

Definition MAX_VISIBLE_DISTANCE : Z := 1000.

Inductive ZONE_TYPE : Set := ZONE_TOWN | ZONE_FIELD.

#[global] Instance ZONE_TYPE_eq_dec : EqDecision ZONE_TYPE.
Proof. solve_decision. Defined.

(** Modelled from the spec: [Coord] (coord.hpp is missing), a position
    with x, z horizontal and y vertical.  Coordinates are rationals: the
    containment tests only compare them. *)
Record Coord : Type := mk_coord { x : Q; y : Q; z : Q }.

(** From the header: the area rect, four [int]. *)
Record ZoneArea : Type := mk_area {
  type : ZONE_TYPE;
  left : Z;
  top : Z;
  right : Z;
  bottom : Z
}.

(** From the header: four [uint8_t]. *)
Record AdjacentZone : Type := mk_adjacent {
  min_x : Z;
  max_x : Z;
  min_y : Z;
  max_y : Z
}.

(** From the header: [int16_t ID] and the area. *)
Record ZoneInfo : Type := mk_info { info_ID : Z; area : ZoneArea }.

(** Modelled from the spec: [ZoneArea::belongs] (declared only), true
    iff the position's (x, z) falls within [left,right] x [top,bottom],
    inclusive on all four edges. *)
Definition belongs (a : ZoneArea) (pos : Coord) : bool :=
  Qle_bool (inject_Z (left a)) (x pos) && Qle_bool (x pos) (inject_Z (right a))
  && Qle_bool (inject_Z (top a)) (z pos) && Qle_bool (z pos) (inject_Z (bottom a)).

(** *** Entities

    [NPC], [Player], [DropableItem] are forward declarations and
    teleport_building.hpp is missing.  A registry holds
    [boost::shared_ptr]s: an entity is its [uint32_t] ID and the object
    the pointer refers to. *)
Inductive EntityKind : Set :=
| PlayerKind | NPCKind | DropableItemKind | TeleportBuildingKind.

#[global] Instance EntityKind_eq_dec : EqDecision EntityKind.
Proof. solve_decision. Defined.

Record Entity (k : EntityKind) : Type := mk_entity { ID : N; object : N }.
Arguments mk_entity {k} _ _.
Arguments ID {k} _.
Arguments object {k} _.

Abbreviation Player := (Entity PlayerKind).
Abbreviation NPC := (Entity NPCKind).
Abbreviation DropableItem := (Entity DropableItemKind).
Abbreviation TeleportBuilding := (Entity TeleportBuildingKind).

(** Modelled from the spec: the [NavigationMesh] collaborator, reduced to
    what the zone consumes: the zone's horizontal extent and the
    walkability query. *)
Record NavigationMesh : Type := mk_navmesh {
  nav_minX : Q;
  nav_maxX : Q;
  nav_minZ : Q;
  nav_maxZ : Q;
  walkable : Coord -> bool
}.

(** From the header: the private members of [Zone].  [m_mutex] (every
    operation below is one critical section), [m_channel] and
    [m_modelMgr] play no part in the operations modelled and are left
    out. *)
Record Zone : Type := mk_zone {
  DelimitedAreas : list ZoneArea;
  m_NavMesh : NavigationMesh;
  building_list : list TeleportBuilding;
  npc_list : gmap N NPC;
  player_list : gmap N Player;
  item_list : gmap N DropableItem
}.

(** [Zone (navmesh)]: a zone starts without areas and entities. *)
Definition new_zone (navmesh : NavigationMesh) : Zone :=
  mk_zone [] navmesh [] ∅ ∅ ∅.

(** A non-instanced zone, 1920 x 1920, walkable everywhere. *)
Definition open_field : NavigationMesh :=
  mk_navmesh 0 1920 0 1920 (fun _ => true).

Definition minX (zn : Zone) : Q := nav_minX (m_NavMesh zn).
Definition maxX (zn : Zone) : Q := nav_maxX (m_NavMesh zn).
Definition minZ (zn : Zone) : Q := nav_minZ (m_NavMesh zn).
Definition maxZ (zn : Zone) : Q := nav_maxZ (m_NavMesh zn).

Definition set_players (zn : Zone) (m : gmap N Player) : Zone :=
  mk_zone (DelimitedAreas zn) (m_NavMesh zn) (building_list zn) (npc_list zn) m (item_list zn).
Definition set_npcs (zn : Zone) (m : gmap N NPC) : Zone :=
  mk_zone (DelimitedAreas zn) (m_NavMesh zn) (building_list zn) m (player_list zn) (item_list zn).
Definition set_items (zn : Zone) (m : gmap N DropableItem) : Zone :=
  mk_zone (DelimitedAreas zn) (m_NavMesh zn) (building_list zn) (npc_list zn) (player_list zn) m.
Definition set_buildings (zn : Zone) (l : list TeleportBuilding) : Zone :=
  mk_zone (DelimitedAreas zn) (m_NavMesh zn) l (npc_list zn) (player_list zn) (item_list zn).
Definition set_areas (zn : Zone) (l : list ZoneArea) : Zone :=
  mk_zone l (m_NavMesh zn) (building_list zn) (npc_list zn) (player_list zn) (item_list zn).

(** *** Entity registries

    zone.cpp is missing: the bodies of [Insert*], [Find*], [Remove*] and
    [Count] follow the specification, the result types are the header's
    ([bool] for the removal of players, NPCs and items, [void] for
    [RemoveBuilding]). *)

(** Modelled from the spec: [Zone::InsertPlayer] adds the player to
    [player_list] keyed by its ID, so that afterwards the ID finds this
    player (a player registered under the ID before is replaced). *)
Definition InsertPlayer (p : Player) (zn : Zone) : Zone :=
  set_players zn (<[ID p := p]> (player_list zn)).

(** Modelled from the spec: [Zone::FindPlayer] returns the player if
    present, else an explicit not-found (the empty [shared_ptr], [None]). *)
Definition FindPlayer (playerID : N) (zn : Zone) : option Player :=
  player_list zn !! playerID.

(** Modelled from the spec: [Zone::RemovePlayer] removes the player and
    reports whether a player with that ID existed. *)
Definition RemovePlayer (playerID : N) (zn : Zone) : bool * Zone :=
  (bool_decide (is_Some (player_list zn !! playerID)),
   set_players zn (delete playerID (player_list zn))).

(** Modelled from the spec: [Zone::InsertNPC], [Zone::FindNPC] and
    [Zone::RemoveNPC], as for players, on [npc_list]. *)
Definition InsertNPC (n : NPC) (zn : Zone) : Zone :=
  set_npcs zn (<[ID n := n]> (npc_list zn)).

Definition FindNPC (npcID : N) (zn : Zone) : option NPC :=
  npc_list zn !! npcID.

Definition RemoveNPC (npcID : N) (zn : Zone) : bool * Zone :=
  (bool_decide (is_Some (npc_list zn !! npcID)),
   set_npcs zn (delete npcID (npc_list zn))).

(** Modelled from the spec: [Zone::InsertItem], [Zone::FindItem] and
    [Zone::RemoveItem], as for players, on [item_list]. *)
Definition InsertItem (i : DropableItem) (zn : Zone) : Zone :=
  set_items zn (<[ID i := i]> (item_list zn)).

Definition FindItem (itemID : N) (zn : Zone) : option DropableItem :=
  item_list zn !! itemID.

Definition RemoveItem (itemID : N) (zn : Zone) : bool * Zone :=
  (bool_decide (is_Some (item_list zn !! itemID)),
   set_items zn (delete itemID (item_list zn))).

Definition has_ID {k} (id : N) (e : Entity k) : bool := (ID e =? id)%N.

(** Modelled from the spec: the insert into [building_list], a
    [std::vector]: a building with a new ID goes to the end, one with a
    registered ID takes the place of the first building that has it. *)
Fixpoint place_building (blg : TeleportBuilding) (l : list TeleportBuilding)
  : list TeleportBuilding :=
  match l with
  | [] => [blg]
  | b :: rest =>
      if has_ID (ID blg) b then blg :: rest else b :: place_building blg rest
  end.

(** Modelled from the spec: [Zone::InsertBuilding]. *)
Definition InsertBuilding (blg : TeleportBuilding) (zn : Zone) : Zone :=
  set_buildings zn (place_building blg (building_list zn)).

(** Modelled from the spec: [Zone::FindBuilding (buildingID)] returns the
    first building of the vector with that ID, or not-found. *)
Definition FindBuilding (buildingID : N) (zn : Zone) : option TeleportBuilding :=
  List.find (has_ID buildingID) (building_list zn).

(** Modelled from the spec: [Zone::RemoveBuilding] erases the buildings
    with that ID.  The header declares it [void]. *)
Definition RemoveBuilding (buildingID : N) (zn : Zone) : unit * Zone :=
  (tt, set_buildings zn (List.filter (fun b => negb (has_ID buildingID b)) (building_list zn))).

(** Modelled from the spec: [Zone::Count], the current player occupancy. *)
Definition Count (zn : Zone) : nat := size (player_list zn).

(** The four removals behind one interface: what the call hands back is
    a [bool] or, for a [void] function, nothing. *)
Inductive Returned : Set :=
| ReturnsBool (b : bool)
| ReturnsVoid.

Definition Present (k : EntityKind) (id : N) (zn : Zone) : bool :=
  match k with
  | PlayerKind => bool_decide (is_Some (FindPlayer id zn))
  | NPCKind => bool_decide (is_Some (FindNPC id zn))
  | DropableItemKind => bool_decide (is_Some (FindItem id zn))
  | TeleportBuildingKind => bool_decide (is_Some (FindBuilding id zn))
  end.

Definition Remove (k : EntityKind) (id : N) (zn : Zone) : Returned * Zone :=
  match k with
  | PlayerKind => let '(b, zn') := RemovePlayer id zn in (ReturnsBool b, zn')
  | NPCKind => let '(b, zn') := RemoveNPC id zn in (ReturnsBool b, zn')
  | DropableItemKind => let '(b, zn') := RemoveItem id zn in (ReturnsBool b, zn')
  | TeleportBuildingKind => let '(_, zn') := RemoveBuilding id zn in (ReturnsVoid, zn')
  end.

(** *** Delimited areas *)

(** Modelled from the spec: [Zone::InsertDelimitedAreas] (declared only)
    appends the area, so that [DelimitedAreas] is in insertion order. *)
Definition InsertDelimitedAreas (a : ZoneArea) (zn : Zone) : Zone :=
  set_areas zn (DelimitedAreas zn ++ [a]).

(** Modelled from the spec: the loop of [Zone::IsInsideTown] (declared
    only).  The areas are evaluated in insertion order and the first match
    wins: the first area whose rect contains the position decides, true
    for a TOWN and false for a FIELD; the result is false when no area
    contains the position. *)
Fixpoint town_scan (areas : list ZoneArea) (position : Coord) : bool :=
  match areas with
  | [] => false
  | a :: rest =>
      if belongs a position
      then bool_decide (type a = ZONE_TOWN)
      else town_scan rest position
  end.

(** Modelled from the spec: [Zone::IsInsideTown]. *)
Definition IsInsideTown (position : Coord) (zn : Zone) : bool :=
  town_scan (DelimitedAreas zn) position.


Definition insert_areas (areas : list ZoneArea) (zn : Zone) : Zone :=
  fold_left (fun acc a => InsertDelimitedAreas a acc) areas zn.

(** *** Adjacency

    Grid coordinates are the [uint8_t] of [AdjacentZone]: the grid runs
    from 0 to 255 on both axes. *)
Definition GRID_FIRST : Z := 0.
Definition GRID_LAST : Z := 255.

Definition in_grid (c : Z) : Prop := GRID_FIRST <= c <= GRID_LAST.

Section Adjacency.

Variables zone_x zone_y : Z -> Z.

(** Modelled from the spec: [GetAdjacentZones] (declared only), a pure
    function from a zone ID to the inclusive range of neighbouring grid
    coordinates, clipped at the grid's edges.  The spec says that the ID
    encodes grid X/Y without giving the encoding: the two decoders
    [zone_x] and [zone_y] are parameters. *)
Definition GetAdjacentZones (zoneID : Z) : AdjacentZone :=
  let gx := zone_x zoneID in
  let gy := zone_y zoneID in
  mk_adjacent (Z.max GRID_FIRST (gx - 1)) (Z.min GRID_LAST (gx + 1))
              (Z.max GRID_FIRST (gy - 1)) (Z.min GRID_LAST (gy + 1)).

End Adjacency.

(** The usual packing of a 16-bit zone ID, X in the low byte and Y in the
    high byte, as one instance of the decoders. *)
Definition low_byte (zoneID : Z) : Z := zoneID mod 256.
Definition high_byte (zoneID : Z) : Z := (zoneID / 256) mod 256.

(** [ResolveMotion], the height queries, [GetNearObjects] and
    [GetNearObjectIDs] are declared only, and the specification gives their
    contracts without an algorithm: they are not modelled. *)

End Zones.

(** ** Decimal numerals

    What the data files hold in their numeric fields: a string of decimal
    digits, most significant first.  [numeral] writes the digits out,
    [value] is the number they denote. *)

Module Numeral.

Definition digit_char (d : Z) : ascii := ascii_of_nat (Z.to_nat (48 + d)).

Fixpoint numeral (ds : list Z) : string :=
  match ds with
  | [] => EmptyString
  | d :: rest => String (digit_char d) (numeral rest)
  end.

Fixpoint value_from (acc : Z) (ds : list Z) : Z :=
  match ds with
  | [] => acc
  | d :: rest => value_from (10 * acc + d) rest
  end.

Definition value (ds : list Z) : Z := value_from 0 ds.

(** At least one digit, every digit between 0 and 9. *)
Definition is_numeral (ds : list Z) : bool :=
  match ds with
  | [] => false
  | _ => forallb (fun d => (0 <=? d) && (d <=? 9)) ds
  end.

(** What may follow a numeral inside a field: nothing, or text that does
    not go on with a digit. *)
Definition ends_number (tail : string) : bool :=
  match tail with
  | EmptyString => true
  | String c _ => match Libc.digit_value c with Some _ => false | None => true end
  end.

End Numeral.

(** ** String literals of the SQL text

    How the server reads what follows the opening quote of a string
    literal: a backslash takes the next character with it, two quotes in a
    row stand for one, a single quote closes the literal.  [literal_end]
    gives what is left of the text after the closing quote, [None] when the
    literal is not closed; [unescape] gives the characters the literal
    stands for. *)

Module Sql.

Definition quote_char : ascii := ascii_of_nat 39.

Fixpoint literal_end (s : string) : option string :=
  match s with
  | EmptyString => None
  | String c rest =>
      if Ascii.eqb c DB.backslash then
        match rest with
        | EmptyString => None
        | String _ rest' => literal_end rest'
        end
      else if Ascii.eqb c quote_char then
        match rest with
        | String c' rest' =>
            if Ascii.eqb c' quote_char then literal_end rest' else Some rest
        | EmptyString => Some rest
        end
      else literal_end rest
  end.

Definition unescape_char (c : ascii) : ascii :=
  match nat_of_ascii c with
  | 48%nat => ascii_of_nat 0
  | 110%nat => ascii_of_nat 10
  | 114%nat => ascii_of_nat 13
  | 90%nat => ascii_of_nat 26
  | _ => c
  end.

Fixpoint unescape (s : string) : option string :=
  match s with
  | EmptyString => Some EmptyString
  | String c rest =>
      if Ascii.eqb c DB.backslash then
        match rest with
        | EmptyString => None
        | String e rest' => String (unescape_char e) <$> unescape rest'
        end
      else String c <$> unescape rest
  end.

End Sql.

(** * Properties *)

(** ** Integer conversions and [atoi] *)

Lemma to_uint8_range (v : Z) : 0 <= Int.to_uint8 v < 256.
Proof. unfold Int.to_uint8. apply Z.mod_pos_bound. lia. Qed.

Lemma to_uint16_range (v : Z) : 0 <= Int.to_uint16 v < 65536.
Proof. unfold Int.to_uint16. apply Z.mod_pos_bound. lia. Qed.

Lemma to_int32_small (v : Z) : - 2 ^ 31 <= v < 2 ^ 31 -> Int.to_int32 v = v.
Proof. intros H. unfold Int.to_int32. rewrite Z.mod_small; lia. Qed.

Example atoi_plain : Libc.atoi "4" = 4.
Proof. reflexivity. Qed.

Example atoi_prefix : Libc.atoi "  -12abc" = -12.
Proof. reflexivity. Qed.

Example atoi_no_digits : Libc.atoi "x1" = 0.
Proof. reflexivity. Qed.

Example atoi_wraps : Libc.atoi "4294967297" = 1.
Proof. reflexivity. Qed.

(** ** The parsers *)

Section ParserFacts.

Import Parser.

Context {V : Type}.

Lemma bind_unfold {X Y} (m : parser V X) (k : X -> parser V Y) (s : pstate V) :
  (m ≫= k) s =
  match m s with
  | Ok v s' => k v s'
  | OutOfRange i s' => OutOfRange i s'
  end.
Proof. reflexivity. Qed.

Lemma subscript_in_range (entries : list string) (i : nat) (e : string) (s : pstate V) :
  entries !! i = Some e ->
  subscript entries i s = Ok e (mk_pstate (idx s) (reads s ++ [i]) (calls s)).
Proof. intros H. unfold subscript. now rewrite H. Qed.

Lemma subscript_past_end (entries : list string) (i : nat) (s : pstate V) :
  (length entries <= i)%nat ->
  subscript (V:=V) entries i s = OutOfRange i s.
Proof.
  intros H. unfold subscript.
  now rewrite (proj2 (lookup_ge_None entries i) H).
Qed.

End ParserFacts.

Ltac parser_unfold :=
  unfold Parser.run, Parser.start,
    Parser.ParserLevelgold, Parser.ParserRefmappingshopwithtab,
    mbind, mret, Parser.parser_bind, Parser.parser_ret,
    Parser.post_increment, Parser.subscript, Parser.invoke;
  cbn -[Libc.atoi Int.to_uint8 Int.to_uint16 Z.eqb].

(** [ParserLevelgold] has no bounds check: a line with fewer than two
    fields makes it index past the end. *)
Lemma ParserLevelgold_short (entries : list string) :
  (length entries < 2)%nat ->
  exists s, Parser.run (Parser.ParserLevelgold entries)
            = Parser.OutOfRange (length entries) s.
Proof.
  intros H. destruct entries as [|e0 [|e1 rest]]; cbn in H; try lia;
    parser_unfold; eauto.
Qed.

(** C9. Under the precondition that [entries] has at least two elements,
    every subscript of [ParserLevelgold] is in bounds (the run does not end
    in [OutOfRange]; it reads exactly [entries[0]] and [entries[1]]) and
    the callback is called exactly once, with the pair
    [(uint8_t) atoi(entries[0])], [(uint16_t) atoi(entries[1])]. *)
Theorem ParserLevelgold_two_entries (entries : list string) :
  (2 <= length entries)%nat ->
  exists e0 e1 : string,
    entries !! 0%nat = Some e0 /\ entries !! 1%nat = Some e1 /\
    Parser.run (Parser.ParserLevelgold entries)
    = Parser.Ok tt (Parser.mk_pstate 2 [0; 1]%nat
                      [(Int.to_uint8 (Libc.atoi e0), Int.to_uint16 (Libc.atoi e1))]).
Proof.
  intros Hlen.
  destruct entries as [|e0 [|e1 rest]]; cbn in Hlen; try lia.
  exists e0, e1. repeat split.
Qed.

Lemma ParserLevelgold_two_entries_witness :
  exists e0 e1 : string,
    ["7"; "300"; "x"]%string !! 0%nat = Some e0 /\
    ["7"; "300"; "x"]%string !! 1%nat = Some e1 /\
    Parser.run (Parser.ParserLevelgold ["7"; "300"; "x"]%string)
    = Parser.Ok tt (Parser.mk_pstate 2 [0; 1]%nat
                      [(Int.to_uint8 (Libc.atoi e0), Int.to_uint16 (Libc.atoi e1))]).
Proof.
  apply (ParserLevelgold_two_entries ["7"; "300"; "x"]%string).
  simpl. lia.
Defined.

Example ParserLevelgold_narrows :
  Parser.calls_of (Parser.run (Parser.ParserLevelgold ["257"; "65537"]%string)) = [(1, 1)].
Proof. reflexivity. Qed.

(** [ParserRefmappingshopwithtab], case by case on the two guards and on
    the length of the line. *)
Lemma Refmapping_first_guard (e0 : string) (rest : list string) :
  Libc.atoi e0 <> 1 ->
  Parser.run (Parser.ParserRefmappingshopwithtab (e0 :: rest))
  = Parser.Ok tt (Parser.mk_pstate 1 [0%nat] []).
Proof.
  intros H. parser_unfold.
  destruct (Z.eqb_spec (Libc.atoi e0) 1); [contradiction | reflexivity].
Qed.

Lemma Refmapping_second_guard (e0 e1 : string) (rest : list string) :
  Libc.atoi e0 = 1 -> Libc.atoi e1 <> 4 ->
  Parser.run (Parser.ParserRefmappingshopwithtab (e0 :: e1 :: rest))
  = Parser.Ok tt (Parser.mk_pstate 2 [0; 1]%nat []).
Proof.
  intros H0 H1. parser_unfold. rewrite H0. cbn.
  destruct (Z.eqb_spec (Libc.atoi e1) 4); [contradiction | reflexivity].
Qed.

Lemma Refmapping_guards_pass (e0 e1 : string) (rest : list string) :
  Libc.atoi e0 = 1 -> Libc.atoi e1 = 4 ->
  Parser.run (Parser.ParserRefmappingshopwithtab (e0 :: e1 :: rest))
  = match rest with
    | [] => Parser.OutOfRange 2 (Parser.mk_pstate 3 [0; 1]%nat [])
    | [e2] => Parser.OutOfRange 3 (Parser.mk_pstate 4 [0; 1; 2]%nat [])
    | e2 :: e3 :: _ => Parser.Ok tt (Parser.mk_pstate 4 [0; 1; 2; 3]%nat [(e2, e3)])
    end.
Proof.
  intros H0 H1. parser_unfold. rewrite H0. cbn. rewrite H1. cbn.
  destruct rest as [|e2 [|e3 rest]]; reflexivity.
Qed.

(** C8, as amended.  For a line of at least two fields the callback is
    called at most once; it is called, with the pair of the third and the
    fourth field, exactly when the first field parses to 1, the second to 4
    and the line has a third and a fourth field; when a guard fails nothing
    past the failing field is read and the callback is not called; when
    both guards pass on a line of fewer than four fields the parser indexes
    past the end of the vector. *)
Theorem ParserRefmappingshopwithtab_calls (entries : list string) :
  (2 <= length entries)%nat ->
  exists e0 e1 : string,
    entries !! 0%nat = Some e0 /\ entries !! 1%nat = Some e1 /\
    let r := Parser.run (Parser.ParserRefmappingshopwithtab entries) in
    (length (Parser.calls_of r) <= 1)%nat /\
    (forall v : string * string,
        Parser.calls_of r = [v] <->
        Libc.atoi e0 = 1 /\ Libc.atoi e1 = 4 /\
        entries !! 2%nat = Some v.1 /\ entries !! 3%nat = Some v.2) /\
    (Libc.atoi e0 <> 1 ->
       r = Parser.Ok tt (Parser.mk_pstate 1 [0%nat] [])) /\
    (Libc.atoi e0 = 1 -> Libc.atoi e1 <> 4 ->
       r = Parser.Ok tt (Parser.mk_pstate 2 [0; 1]%nat [])) /\
    (Libc.atoi e0 = 1 -> Libc.atoi e1 = 4 -> (length entries < 4)%nat ->
       r = Parser.OutOfRange (length entries)
             (Parser.mk_pstate (S (length entries)) (seq 0 (length entries)) [])).
Proof.
  intros Hlen.
  destruct entries as [|e0 [|e1 rest]]; cbn in Hlen; try lia.
  exists e0, e1. split; [reflexivity|]. split; [reflexivity|].
  cbv zeta.
  destruct (Z.eq_dec (Libc.atoi e0) 1) as [H0|H0].
  - destruct (Z.eq_dec (Libc.atoi e1) 4) as [H1|H1].
    + rewrite (Refmapping_guards_pass e0 e1 rest H0 H1).
      destruct rest as [|e2 [|e3 rest]]; cbn.
      * repeat split; try lia; try congruence.
        intros (_ & _ & H & _). discriminate H.
      * repeat split; try lia; try congruence.
        intros (_ & _ & _ & H). discriminate H.
      * split; [lia|]. split; [|cbn; repeat split; (lia || congruence)].
        intros [v1 v2]. cbn. split.
        -- intros [= <- <-]. auto.
        -- intros (_ & _ & [= <-] & [= <-]). reflexivity.
    + rewrite (Refmapping_second_guard e0 e1 rest H0 H1). cbn.
      repeat split; try lia; try congruence; tauto.
  - rewrite (Refmapping_first_guard e0 (e1 :: rest) H0). cbn.
    repeat split; try lia; try congruence; tauto.
Qed.

Lemma ParserRefmappingshopwithtab_calls_witness :
  exists e0 e1 : string,
    ["1"; "4"; "STORE_CH_POTION"; "STORE_CH_POTION_TAB1"]%string !! 0%nat = Some e0 /\
    ["1"; "4"; "STORE_CH_POTION"; "STORE_CH_POTION_TAB1"]%string !! 1%nat = Some e1 /\
    let r := Parser.run (Parser.ParserRefmappingshopwithtab
                           ["1"; "4"; "STORE_CH_POTION"; "STORE_CH_POTION_TAB1"]%string) in
    (length (Parser.calls_of r) <= 1)%nat /\
    (forall v : string * string,
        Parser.calls_of r = [v] <->
        Libc.atoi e0 = 1 /\ Libc.atoi e1 = 4 /\
        ["1"; "4"; "STORE_CH_POTION"; "STORE_CH_POTION_TAB1"]%string !! 2%nat = Some v.1 /\
        ["1"; "4"; "STORE_CH_POTION"; "STORE_CH_POTION_TAB1"]%string !! 3%nat = Some v.2) /\
    (Libc.atoi e0 <> 1 ->
       r = Parser.Ok tt (Parser.mk_pstate 1 [0%nat] [])) /\
    (Libc.atoi e0 = 1 -> Libc.atoi e1 <> 4 ->
       r = Parser.Ok tt (Parser.mk_pstate 2 [0; 1]%nat [])) /\
    (Libc.atoi e0 = 1 -> Libc.atoi e1 = 4 ->
     (length ["1"; "4"; "STORE_CH_POTION"; "STORE_CH_POTION_TAB1"]%string < 4)%nat ->
       r = Parser.OutOfRange
             (length ["1"; "4"; "STORE_CH_POTION"; "STORE_CH_POTION_TAB1"]%string)
             (Parser.mk_pstate
                (S (length ["1"; "4"; "STORE_CH_POTION"; "STORE_CH_POTION_TAB1"]%string))
                (seq 0 (length ["1"; "4"; "STORE_CH_POTION"; "STORE_CH_POTION_TAB1"]%string))
                [])).
Proof.
  apply (ParserRefmappingshopwithtab_calls
           ["1"; "4"; "STORE_CH_POTION"; "STORE_CH_POTION_TAB1"]%string).
  simpl. lia.
Defined.

(** C8 as stated fails on a line of two fields: both guards pass, and the
    callback is not called; the run stops at [entries[2]], past the end. *)
Lemma ParserRefmappingshopwithtab_two_fields :
  (2 <= length ["1"; "4"]%string)%nat /\
  Libc.atoi "1" = 1 /\ Libc.atoi "4" = 4 /\
  Parser.run (Parser.ParserRefmappingshopwithtab ["1"; "4"]%string)
  = Parser.OutOfRange 2 (Parser.mk_pstate 3 [0; 1]%nat []) /\
  ~ (exists v : string * string,
        Parser.calls_of (Parser.run (Parser.ParserRefmappingshopwithtab ["1"; "4"]%string))
        = [v]).
Proof.
  repeat split.
  - simpl. lia.
  - intros [v Hv]. discriminate Hv.
Qed.

Example ParserRefmappingshopwithtab_full_line :
  Parser.calls_of (Parser.run (Parser.ParserRefmappingshopwithtab
                                 ["1"; "4"; "STORE_A"; "TAB_A"; "more"]%string))
  = [("STORE_A", "TAB_A")]%string.
Proof. reflexivity. Qed.

Example ParserRefmappingshopwithtab_rejected_line :
  Parser.run (Parser.ParserRefmappingshopwithtab ["0"; "4"; "STORE_A"; "TAB_A"]%string)
  = Parser.Ok tt (Parser.mk_pstate 1 [0%nat] []).
Proof. reflexivity. Qed.

(** ** Gateway connection states *)

Lemma CONNECTION_STATES_cases (s : srv.CONNECTION_STATES) :
  s = srv.STATE_HANDSHAKE \/ s = srv.STATE_VERSION \/ s = srv.STATE_LOGIN.
Proof. destruct s; auto. Qed.

Lemma enumerator_inj (s t : srv.CONNECTION_STATES) :
  srv.enumerator s = srv.enumerator t -> s = t.
Proof. destruct s, t; cbn; intros H; (reflexivity || discriminate H). Qed.

(** C7. The connection state enumeration has exactly three states,
    HANDSHAKE, VERSION and LOGIN: every state is one of the three, the
    three are pairwise different, and their enumerator values put
    HANDSHAKE before VERSION before LOGIN. *)
Theorem CONNECTION_STATES_three_ordered :
  (forall s : srv.CONNECTION_STATES, s ∈ srv.all_states) /\
  NoDup srv.all_states /\
  length srv.all_states = 3%nat /\
  srv.enumerator srv.STATE_HANDSHAKE < srv.enumerator srv.STATE_VERSION
  < srv.enumerator srv.STATE_LOGIN /\
  (forall s : srv.CONNECTION_STATES,
      srv.all_states !! Z.to_nat (srv.enumerator s) = Some s).
Proof.
  split; [|split; [|split; [|split]]].
  - intros s. unfold srv.all_states. destruct s; set_solver.
  - apply (bool_decide_unpack _). reflexivity.
  - reflexivity.
  - cbn. lia.
  - intros s. destruct s; reflexivity.
Qed.

(** ** The IP filter *)

Lemma prefix_append (s t : string) : String.prefix s (s ++ t)%string = true.
Proof.
  induction s as [|c s IH].
  - now destruct t.
  - change (String.prefix (String c s) (String c (s ++ t)%string) = true).
    cbn [String.prefix].
    destruct (Ascii.ascii_dec c c) as [_|Hne]; [exact IH | now destruct Hne].
Qed.

Lemma Filter_statement (conn : DB.Connection) (ip : string) :
  DB.text (DB.put_quoted
             (DB.put (DB.query conn) "select * from ip_filter where ip = ") ip)
  = DB.IP.select_text ip.
Proof. reflexivity. Qed.

(** On any connection the filter executes exactly one statement, the
    select on [ip_filter] for the quoted IP, and its answer is true if and
    only if the query object reports a non-zero affected-row count for that
    statement. *)
Theorem Filter_one_select (conn : DB.Connection) (ip : string) :
  DB.executed (DB.IP.Filter conn ip).2 = DB.executed conn ++ [DB.IP.select_text ip] /\
  String.prefix "select * from ip_filter where ip = " (DB.IP.select_text ip) = true /\
  ((DB.IP.Filter conn ip).1 = true <-> DB.server conn (DB.IP.select_text ip) <> 0%N) /\
  ((DB.IP.Filter conn ip).1 = false <-> DB.server conn (DB.IP.select_text ip) = 0%N).
Proof.
  unfold DB.IP.Filter, DB.exec, DB.affected_rows.
  rewrite Filter_statement. cbn [DB.reported DB.text].
  split; [|split].
  - now destruct (N.eqb_spec (DB.server conn (DB.IP.select_text ip)) 0).
  - apply prefix_append.
  - destruct (N.eqb_spec (DB.server conn (DB.IP.select_text ip)) 0) as [E|E];
      cbn; rewrite ?E; split; split; intros; congruence.
Qed.

Lemma select_text_is_select (ip : string) :
  MySQL.is_select (DB.IP.select_text ip) = true.
Proof. reflexivity. Qed.

(** On a MySQL connection the count reported after [exec] of the select
    is [(my_ulonglong) -1], whatever the table holds: the filter answers
    true for every address. *)
Lemma Filter_answers_true (ip_filter : list string) (other : string -> MySQL.outcome)
      (ip : string) :
  (DB.IP.Filter (MySQL.connection ip_filter other) ip).1 = true /\
  ((DB.IP.Filter (MySQL.connection ip_filter other) ip).1 = MySQL.listed ip_filter ip
   <-> MySQL.listed ip_filter ip = true).
Proof.
  assert (H : (DB.IP.Filter (MySQL.connection ip_filter other) ip).1 = true).
  { unfold DB.IP.Filter, DB.exec, DB.affected_rows, MySQL.connection.
    rewrite Filter_statement. cbn [DB.reported DB.text DB.server].
    unfold MySQL.affected_rows_after_exec. rewrite select_text_is_select.
    reflexivity. }
  rewrite H. split; [reflexivity|]. split; congruence.
Qed.

(** C10 fails on the code.  With 10.0.0.7 the only address in [ip_filter],
    no row matches 10.0.0.8; the filter sends its one select and answers
    true, not false: after [exec] of a SELECT, [affected_rows] reports
    [(my_ulonglong) -1], which is not zero. *)
Theorem Filter_unlisted_address :
  let conn := MySQL.connection ["10.0.0.7"%string] (fun _ => MySQL.Failed) in
  MySQL.listed ["10.0.0.7"%string] "10.0.0.8" = false /\
  DB.executed (DB.IP.Filter conn "10.0.0.8").2
  = ["select * from ip_filter where ip = '10.0.0.8'"%string] /\
  DB.server conn "select * from ip_filter where ip = '10.0.0.8'" = MySQL.MINUS_ONE /\
  (DB.IP.Filter conn "10.0.0.8").1 = true.
Proof.
  cbv zeta. split; [reflexivity|]. split; [reflexivity|]. split; [reflexivity|].
  apply (Filter_answers_true ["10.0.0.7"%string] (fun _ => MySQL.Failed) "10.0.0.8").
Qed.

Example Filter_listed :
  let listed q := if String.eqb q (DB.IP.select_text "10.0.0.7") then 1%N else 0%N in
  let conn := DB.mk_connection listed [] in
  DB.IP.Filter conn "10.0.0.7"
  = (true, DB.mk_connection listed
             ["select * from ip_filter where ip = '10.0.0.7'"%string]) /\
  (DB.IP.Filter conn "10.0.0.8").1 = false.
Proof. split; reflexivity. Qed.

Example Filter_quotes_the_address :
  DB.IP.select_text "x' or '1'='1"
  = String.append "select * from ip_filter where ip = 'x"
      (String DB.backslash
         (String.append "' or "
            (String DB.backslash
               (String.append "'1"
                  (String DB.backslash
                     (String.append "'="
                        (String DB.backslash "'1'"))))))).
Proof. reflexivity. Qed.

(** ** Zone: entity registries *)

Section Registries.

Import Zones.

Context {k : EntityKind}.


Lemma find_after_erase (id : N) (l : list (Entity k)) :
  List.find (has_ID id) (List.filter (fun b => negb (has_ID id b)) l) = None.
Proof.
  induction l as [|b l IH]; [reflexivity|].
  cbn. destruct (has_ID id b) eqn:E; cbn; [exact IH|].
  now rewrite E.
Qed.

End Registries.

Lemma is_Some_None_false {A} : bool_decide (is_Some (@None A)) = false.
Proof. apply bool_decide_eq_false. intros [v Hv]. discriminate Hv. Qed.

Lemma RemovePlayer_reports (playerID : N) (zn : Zones.Zone) :
  (Zones.RemovePlayer playerID zn).1 = true <-> is_Some (Zones.FindPlayer playerID zn).
Proof. unfold Zones.RemovePlayer, Zones.FindPlayer. cbn. apply bool_decide_eq_true. Qed.

Lemma RemovePlayer_others (playerID other : N) (zn : Zones.Zone) :
  other <> playerID ->
  Zones.FindPlayer other (Zones.RemovePlayer playerID zn).2 = Zones.FindPlayer other zn.
Proof.
  intros H. unfold Zones.RemovePlayer, Zones.FindPlayer. cbn.
  now apply lookup_delete_ne.
Qed.

Lemma InsertPlayer_others (p : Zones.Player) (other : N) (zn : Zones.Zone) :
  other <> Zones.ID p ->
  Zones.FindPlayer other (Zones.InsertPlayer p zn) = Zones.FindPlayer other zn.
Proof.
  intros H. unfold Zones.InsertPlayer, Zones.FindPlayer. cbn.
  now apply lookup_insert_ne.
Qed.

(** C1, as amended.  For players, NPCs and dropable items the removal
    returns a boolean that is true if and only if an entity with the ID was
    registered before the call; [RemoveBuilding] is declared [void] and
    returns nothing.  For all four kinds no entity with the ID is registered
    afterwards. *)
Theorem Remove_reports_presence (k : Zones.EntityKind) (id : N) (zn : Zones.Zone) :
  (Zones.Remove k id zn).1
  = match k with
    | Zones.TeleportBuildingKind => Zones.ReturnsVoid
    | _ => Zones.ReturnsBool (Zones.Present k id zn)
    end /\
  Zones.Present k id (Zones.Remove k id zn).2 = false.
Proof.
  destruct k; cbn; (split; [reflexivity|]).
  - unfold Zones.FindPlayer. cbn. rewrite lookup_delete_eq. apply is_Some_None_false.
  - unfold Zones.FindNPC. cbn. rewrite lookup_delete_eq. apply is_Some_None_false.
  - unfold Zones.FindItem. cbn. rewrite lookup_delete_eq. apply is_Some_None_false.
  - unfold Zones.FindBuilding. cbn. rewrite find_after_erase. apply is_Some_None_false.
Qed.

(** C1 as stated fails for buildings: with building 7 registered,
    [RemoveBuilding 7] hands back no boolean at all, so not the boolean
    [true] that reports its presence. *)
Lemma RemoveBuilding_returns_nothing :
  let zn := Zones.InsertBuilding (Zones.mk_entity 7 1)
              (Zones.new_zone Zones.open_field) in
  Zones.Present Zones.TeleportBuildingKind 7 zn = true /\
  (Zones.Remove Zones.TeleportBuildingKind 7 zn).1 = Zones.ReturnsVoid /\
  (Zones.Remove Zones.TeleportBuildingKind 7 zn).1
  <> Zones.ReturnsBool (Zones.Present Zones.TeleportBuildingKind 7 zn).
Proof.
  intros zn. split; [reflexivity|]. split; [reflexivity|]. cbn. discriminate.
Qed.


Example registry_round_trip :
  let old : Zones.Player := Zones.mk_entity 5 100 in
  let new : Zones.Player := Zones.mk_entity 5 200 in
  let zn := Zones.InsertPlayer new
              (Zones.InsertPlayer old (Zones.new_zone Zones.open_field)) in
  Zones.FindPlayer 5 zn = Some new /\ Zones.Count zn = 1%nat /\
  (Zones.RemovePlayer 5 zn).1 = true /\
  Zones.Count (Zones.RemovePlayer 5 zn).2 = 0%nat /\
  (Zones.RemovePlayer 6 zn).1 = false.
Proof. vm_compute. repeat split. Qed.

Example building_registry :
  let a : Zones.TeleportBuilding := Zones.mk_entity 7 1 in
  let b : Zones.TeleportBuilding := Zones.mk_entity 8 2 in
  let a' : Zones.TeleportBuilding := Zones.mk_entity 7 3 in
  let zn := Zones.InsertBuilding b
              (Zones.InsertBuilding a (Zones.new_zone Zones.open_field)) in
  Zones.building_list (Zones.InsertBuilding a' zn) = [a'; b] /\
  Zones.building_list (Zones.RemoveBuilding 7 zn).2 = [b].
Proof. repeat split. Qed.

(** ** Zone: adjacency *)

Lemma low_byte_in_grid (zoneID : Z) : Zones.in_grid (Zones.low_byte zoneID).
Proof.
  unfold Zones.in_grid, Zones.low_byte, Zones.GRID_FIRST, Zones.GRID_LAST.
  pose proof (Z.mod_pos_bound zoneID 256). lia.
Qed.

Lemma high_byte_in_grid (zoneID : Z) : Zones.in_grid (Zones.high_byte zoneID).
Proof.
  unfold Zones.in_grid, Zones.high_byte, Zones.GRID_FIRST, Zones.GRID_LAST.
  pose proof (Z.mod_pos_bound (zoneID / 256) 256). lia.
Qed.

(** C3. [GetAdjacentZones] is a function of the zone ID alone (it takes
    and returns no zone state).  For every zone ID whose grid coordinates
    [(gx, gy)] lie in the grid, its result is an inclusive range that never
    contains an out-of-grid coordinate, contains the zone itself, reaches at
    most one cell away on each side (so it never wraps to the far edge) and
    holds exactly the in-grid cells at distance at most one; for a zone in
    the interior it is the full 3x3 neighbourhood. *)
Theorem GetAdjacentZones_clipped_neighbourhood (zone_x zone_y : Z -> Z) (zoneID : Z) :
  Zones.in_grid (zone_x zoneID) ->
  Zones.in_grid (zone_y zoneID) ->
  let gx := zone_x zoneID in
  let gy := zone_y zoneID in
  let adj := Zones.GetAdjacentZones zone_x zone_y zoneID in
  (Zones.in_grid (Zones.min_x adj) /\ Zones.in_grid (Zones.max_x adj) /\
   Zones.in_grid (Zones.min_y adj) /\ Zones.in_grid (Zones.max_y adj)) /\
  (Zones.min_x adj <= gx <= Zones.max_x adj /\
   Zones.min_y adj <= gy <= Zones.max_y adj) /\
  (forall cx cy : Z,
      Zones.min_x adj <= cx <= Zones.max_x adj /\
      Zones.min_y adj <= cy <= Zones.max_y adj
      <->
      Zones.in_grid cx /\ Zones.in_grid cy /\
      Z.abs (cx - gx) <= 1 /\ Z.abs (cy - gy) <= 1) /\
  (Zones.GRID_FIRST < gx < Zones.GRID_LAST ->
   Zones.GRID_FIRST < gy < Zones.GRID_LAST ->
   adj = Zones.mk_adjacent (gx - 1) (gx + 1) (gy - 1) (gy + 1) /\
   (Zones.max_x adj - Zones.min_x adj + 1) * (Zones.max_y adj - Zones.min_y adj + 1) = 9).
Proof.
  unfold Zones.in_grid, Zones.GetAdjacentZones, Zones.GRID_FIRST, Zones.GRID_LAST.
  intros Hx Hy. cbn.
  split; [lia|]. split; [lia|]. split.
  - intros cx cy. lia.
  - intros Hix Hiy.
    rewrite !Z.max_r, !Z.min_r by lia. split; [reflexivity | lia].
Qed.

Lemma GetAdjacentZones_clipped_neighbourhood_witness :
  let gx := Zones.low_byte 25000 in
  let gy := Zones.high_byte 25000 in
  let adj := Zones.GetAdjacentZones Zones.low_byte Zones.high_byte 25000 in
  (Zones.in_grid (Zones.min_x adj) /\ Zones.in_grid (Zones.max_x adj) /\
   Zones.in_grid (Zones.min_y adj) /\ Zones.in_grid (Zones.max_y adj)) /\
  (Zones.min_x adj <= gx <= Zones.max_x adj /\
   Zones.min_y adj <= gy <= Zones.max_y adj) /\
  (forall cx cy : Z,
      Zones.min_x adj <= cx <= Zones.max_x adj /\
      Zones.min_y adj <= cy <= Zones.max_y adj
      <->
      Zones.in_grid cx /\ Zones.in_grid cy /\
      Z.abs (cx - gx) <= 1 /\ Z.abs (cy - gy) <= 1) /\
  (Zones.GRID_FIRST < gx < Zones.GRID_LAST ->
   Zones.GRID_FIRST < gy < Zones.GRID_LAST ->
   adj = Zones.mk_adjacent (gx - 1) (gx + 1) (gy - 1) (gy + 1) /\
   (Zones.max_x adj - Zones.min_x adj + 1) * (Zones.max_y adj - Zones.min_y adj + 1) = 9).
Proof.
  apply (GetAdjacentZones_clipped_neighbourhood Zones.low_byte Zones.high_byte 25000).
  - vm_compute. split; discriminate.
  - vm_compute. split; discriminate.
Defined.

Example GetAdjacentZones_interior :
  Zones.GetAdjacentZones Zones.low_byte Zones.high_byte 25000
  = Zones.mk_adjacent 167 169 96 98.
Proof. reflexivity. Qed.

Example GetAdjacentZones_corner :
  Zones.GetAdjacentZones Zones.low_byte Zones.high_byte 0 = Zones.mk_adjacent 0 1 0 1.
Proof. reflexivity. Qed.

Example GetAdjacentZones_far_edge :
  Zones.GetAdjacentZones Zones.low_byte Zones.high_byte 32767
  = Zones.mk_adjacent 254 255 126 128.
Proof. reflexivity. Qed.

(** ** Zone: delimited areas *)






Example IsInsideTown_field_in_front :
  let field := Zones.mk_area Zones.ZONE_FIELD 0 0 500 500 in
  let town := Zones.mk_area Zones.ZONE_TOWN 0 0 500 500 in
  let position := Zones.mk_coord 250 0 250 in
  Zones.IsInsideTown position
    (Zones.insert_areas [field; town] (Zones.new_zone Zones.open_field)) = false /\
  Zones.IsInsideTown position
    (Zones.insert_areas [town; field] (Zones.new_zone Zones.open_field)) = true.
Proof. split; reflexivity. Qed.

Example belongs_edges :
  let town := Zones.mk_area Zones.ZONE_TOWN 0 0 500 500 in
  Zones.belongs town (Zones.mk_coord 0 0 0) = true /\
  Zones.belongs town (Zones.mk_coord 500 0 500) = true /\
  Zones.belongs town (Zones.mk_coord (501 # 1) 0 500) = false /\
  Zones.belongs town (Zones.mk_coord (1 # 2) 9 (999 # 2)) = true.
Proof. repeat split. Qed.

(** * Further properties of the parsers *)

(** The runs of the two parsers, by the shape of the line. *)
Lemma ParserLevelgold_run (entries : list string) :
  Parser.run (Parser.ParserLevelgold entries)
  = match entries with
    | [] => Parser.OutOfRange 0 (Parser.mk_pstate 1 [] [])
    | [e0] => Parser.OutOfRange 1 (Parser.mk_pstate 2 [0%nat] [])
    | e0 :: e1 :: _ =>
        Parser.Ok tt (Parser.mk_pstate 2 [0; 1]%nat
                        [(Int.to_uint8 (Libc.atoi e0), Int.to_uint16 (Libc.atoi e1))])
    end.
Proof. destruct entries as [|e0 [|e1 rest]]; reflexivity. Qed.

Lemma ParserRefmappingshopwithtab_run (entries : list string) :
  Parser.run (Parser.ParserRefmappingshopwithtab entries)
  = match entries with
    | [] => Parser.OutOfRange 0 (Parser.mk_pstate 1 [] [])
    | e0 :: after0 =>
        if Libc.atoi e0 =? 1 then
          match after0 with
          | [] => Parser.OutOfRange 1 (Parser.mk_pstate 2 [0%nat] [])
          | e1 :: after1 =>
              if Libc.atoi e1 =? 4 then
                match after1 with
                | [] => Parser.OutOfRange 2 (Parser.mk_pstate 3 [0; 1]%nat [])
                | [e2] => Parser.OutOfRange 3 (Parser.mk_pstate 4 [0; 1; 2]%nat [])
                | e2 :: e3 :: _ =>
                    Parser.Ok tt (Parser.mk_pstate 4 [0; 1; 2; 3]%nat [(e2, e3)])
                end
              else Parser.Ok tt (Parser.mk_pstate 2 [0; 1]%nat [])
          end
        else Parser.Ok tt (Parser.mk_pstate 1 [0%nat] [])
    end.
Proof.
  destruct entries as [|e0 after0]; [reflexivity|].
  parser_unfold. destruct (Libc.atoi e0 =? 1); [|reflexivity].
  destruct after0 as [|e1 after1]; [reflexivity|].
  cbn -[Libc.atoi Z.eqb]. destruct (Libc.atoi e1 =? 4); [|reflexivity].
  destruct after1 as [|e2 [|e3 after3]]; reflexivity.
Qed.

(** X1. On every line [ParserLevelgold] calls [func] at most once; it
    calls it, and it stays inside the vector, exactly when the line has at
    least two fields. *)
Theorem ParserLevelgold_called_iff_two_fields (entries : list string) :
  let r := Parser.run (Parser.ParserLevelgold entries) in
  (length (Parser.calls_of r) <= 1)%nat /\
  (Parser.calls_of r <> [] <-> (2 <= length entries)%nat) /\
  ((exists s, r = Parser.Ok tt s) <-> (2 <= length entries)%nat).
Proof.
  cbv zeta. rewrite ParserLevelgold_run.
  destruct entries as [|e0 [|e1 rest]]; cbn -[Int.to_uint8 Int.to_uint16 Libc.atoi].
  - split; [lia|]. split; split; try (intros H; lia); try congruence.
    intros [s Hs]. discriminate Hs.
  - split; [lia|]. split; split; try (intros H; lia); try congruence.
    intros [s Hs]. discriminate Hs.
  - split; [lia|]. split; split; try (intros _; lia); try discriminate.
    intros _. eauto.
Qed.

(** X2. When [ParserLevelgold] leaves the vector, it does so at the first
    missing field (index [length entries], below 2), after reading the
    fields before it in order, and [func] has not been called. *)
Theorem ParserLevelgold_fault (entries : list string) (i : nat)
        (s : Parser.pstate (Z * Z)) :
  Parser.run (Parser.ParserLevelgold entries) = Parser.OutOfRange i s ->
  i = length entries /\ (i < 2)%nat /\
  Parser.calls s = [] /\ Parser.reads s = seq 0 i /\ Parser.idx s = S i.
Proof.
  rewrite ParserLevelgold_run.
  destruct entries as [|e0 [|e1 rest]]; intros H; try discriminate H;
    injection H as <- <-; cbn; repeat split; lia.
Qed.

Lemma ParserLevelgold_fault_witness :
  1%nat = length ["12"]%string /\ (1 < 2)%nat /\
  Parser.calls (Parser.mk_pstate (V := Z * Z) 2 [0%nat] []) = [] /\
  Parser.reads (Parser.mk_pstate (V := Z * Z) 2 [0%nat] []) = seq 0 1 /\
  Parser.idx (Parser.mk_pstate (V := Z * Z) 2 [0%nat] []) = 2%nat.
Proof.
  apply (ParserLevelgold_fault ["12"]%string 1 (Parser.mk_pstate 2 [0%nat] [])).
  reflexivity.
Defined.

(** X3. [ParserLevelgold] depends on the first two fields only: two lines
    that agree on them are treated alike, whatever follows. *)
Theorem ParserLevelgold_first_two_fields (entries entries' : list string) :
  take 2 entries = take 2 entries' ->
  Parser.run (Parser.ParserLevelgold entries)
  = Parser.run (Parser.ParserLevelgold entries').
Proof.
  rewrite !ParserLevelgold_run.
  destruct entries as [|e0 [|e1 rest]], entries' as [|e0' [|e1' rest']];
    intros H; simplify_eq/=; reflexivity.
Qed.

Lemma ParserLevelgold_first_two_fields_witness :
  Parser.run (Parser.ParserLevelgold ["3"; "40"; "comment"]%string)
  = Parser.run (Parser.ParserLevelgold ["3"; "40"]%string).
Proof.
  apply (ParserLevelgold_first_two_fields ["3"; "40"; "comment"]%string ["3"; "40"]%string).
  reflexivity.
Defined.

(** X4. Whatever the line holds, the pair handed to [func] by
    [ParserLevelgold] fits its types: the first component is below 256,
    the second below 65536, neither is negative. *)
Theorem ParserLevelgold_arguments_fit (entries : list string) :
  Forall (fun v : Z * Z => 0 <= v.1 < 256 /\ 0 <= v.2 < 65536)
         (Parser.calls_of (Parser.run (Parser.ParserLevelgold entries))).
Proof.
  rewrite ParserLevelgold_run.
  destruct entries as [|e0 [|e1 rest]]; cbn -[Int.to_uint8 Int.to_uint16 Libc.atoi];
    try apply Forall_nil_2.
  apply Forall_cons_2; [|apply Forall_nil_2].
  split; [apply to_uint8_range | apply to_uint16_range].
Qed.

(** ** Numeric fields *)

Lemma digit_cases (d : Z) :
  (0 <=? d) && (d <=? 9) = true ->
  d = 0 \/ d = 1 \/ d = 2 \/ d = 3 \/ d = 4 \/ d = 5 \/ d = 6 \/ d = 7 \/ d = 8 \/ d = 9.
Proof. intros H. apply andb_true_iff in H as [Hlo Hhi]. lia. Qed.

Ltac each_digit H :=
  apply digit_cases in H;
  repeat (destruct H as [H | H]); subst.

Lemma digit_value_digit_char (d : Z) :
  (0 <=? d) && (d <=? 9) = true ->
  Libc.digit_value (Numeral.digit_char d) = Some d.
Proof. intros H. each_digit H; reflexivity. Qed.

Lemma digit_char_starts_number (d : Z) :
  (0 <=? d) && (d <=? 9) = true ->
  Libc.isspace (Numeral.digit_char d) = false /\
  Numeral.digit_char d <> "-"%char /\ Numeral.digit_char d <> "+"%char.
Proof. intros H. each_digit H; repeat split; discriminate. Qed.

Lemma read_digits_stops (acc : Z) (tail : string) :
  Numeral.ends_number tail = true -> Libc.read_digits acc tail = acc.
Proof.
  destruct tail as [|c tail]; [reflexivity|]. cbn.
  now destruct (Libc.digit_value c).
Qed.

Lemma read_digits_numeral (ds : list Z) (acc : Z) (tail : string) :
  forallb (fun d => (0 <=? d) && (d <=? 9)) ds = true ->
  Numeral.ends_number tail = true ->
  Libc.read_digits acc (Numeral.numeral ds ++ tail)%string = Numeral.value_from acc ds.
Proof.
  revert acc. induction ds as [|d ds IH]; intros acc Hds Htail.
  - now apply read_digits_stops.
  - cbn [forallb] in Hds. apply andb_true_iff in Hds as [Hd Hds].
    change (Libc.read_digits acc
              (String (Numeral.digit_char d) (Numeral.numeral ds ++ tail)%string)
            = Numeral.value_from (10 * acc + d) ds).
    cbn [Libc.read_digits]. rewrite (digit_value_digit_char d Hd).
    now apply IH.
Qed.

Lemma value_from_nonneg (ds : list Z) (acc : Z) :
  forallb (fun d => (0 <=? d) && (d <=? 9)) ds = true ->
  0 <= acc -> 0 <= Numeral.value_from acc ds.
Proof.
  revert acc. induction ds as [|d ds IH]; intros acc Hds Hacc; [exact Hacc|].
  cbn [forallb] in Hds. apply andb_true_iff in Hds as [Hd Hds].
  apply andb_true_iff in Hd as [Hlo Hhi].
  cbn [Numeral.value_from]. apply IH; [exact Hds | lia].
Qed.

Lemma strtol_unsigned (c : ascii) (body : string) :
  Libc.isspace c = false -> c <> "-"%char -> c <> "+"%char ->
  Libc.strtol (String c body)
  = Int.saturate_long (Libc.read_digits 0 (String c body)).
Proof.
  intros Hspace Hminus Hplus. unfold Libc.strtol.
  cbn [Libc.skip_spaces]. rewrite Hspace.
  destruct c as [[] [] [] [] [] [] [] []]; try reflexivity; congruence.
Qed.

(** [atoi] on a field that starts with a numeral: the value of the
    numeral, as long as it fits an [int]. *)
Lemma atoi_numeral (ds : list Z) (tail : string) :
  Numeral.is_numeral ds = true ->
  Numeral.ends_number tail = true ->
  Numeral.value ds < 2 ^ 31 ->
  Libc.atoi (Numeral.numeral ds ++ tail)%string = Numeral.value ds.
Proof.
  intros Hds Htail Hfit.
  destruct ds as [|d ds]; [discriminate Hds|].
  unfold Numeral.is_numeral in Hds.
  assert (Hd : (0 <=? d) && (d <=? 9) = true)
    by (cbn [forallb] in Hds; now apply andb_true_iff in Hds as [Hd _]).
  destruct (digit_char_starts_number d Hd) as (Hspace & Hminus & Hplus).
  pose proof (value_from_nonneg (d :: ds) 0 Hds (Z.le_refl 0)) as Hpos.
  fold (Numeral.value (d :: ds)) in Hpos.
  unfold Libc.atoi.
  change (Numeral.numeral (d :: ds) ++ tail)%string
    with (String (Numeral.digit_char d) (Numeral.numeral ds ++ tail)%string).
  rewrite (strtol_unsigned _ _ Hspace Hminus Hplus).
  change (String (Numeral.digit_char d) (Numeral.numeral ds ++ tail)%string)
    with (Numeral.numeral (d :: ds) ++ tail)%string.
  rewrite (read_digits_numeral (d :: ds) 0 tail Hds Htail).
  fold (Numeral.value (d :: ds)).
  unfold Int.saturate_long, Int.LONG_MAX, Int.LONG_MIN.
  rewrite Z.min_r, Z.max_r by lia.
  apply to_int32_small. lia.
Qed.

(** X5. A line whose first two fields begin with decimal numerals (below
    2^31, followed by nothing or by text that does not go on with a digit)
    makes [ParserLevelgold] call [func] with the two numbers reduced
    modulo 256 and modulo 65536; a level below 256 and an amount below
    65536 come through unchanged. *)
Theorem ParserLevelgold_reads_numerals
        (level gold : list Z) (tail0 tail1 : string) (rest : list string) :
  Numeral.is_numeral level = true ->
  Numeral.is_numeral gold = true ->
  Numeral.ends_number tail0 = true ->
  Numeral.ends_number tail1 = true ->
  Numeral.value level < 2 ^ 31 ->
  Numeral.value gold < 2 ^ 31 ->
  let line := (Numeral.numeral level ++ tail0)%string
              :: (Numeral.numeral gold ++ tail1)%string :: rest in
  let called := Parser.calls_of (Parser.run (Parser.ParserLevelgold line)) in
  called = [(Numeral.value level mod 256, Numeral.value gold mod 65536)] /\
  (Numeral.value level < 256 -> Numeral.value gold < 65536 ->
   called = [(Numeral.value level, Numeral.value gold)]).
Proof.
  intros Hl Hg Ht0 Ht1 Hfl Hfg. cbv zeta.
  rewrite ParserLevelgold_run. cbn [Parser.calls_of Parser.calls].
  rewrite (atoi_numeral level tail0 Hl Ht0 Hfl), (atoi_numeral gold tail1 Hg Ht1 Hfg).
  split; [reflexivity|].
  intros Hsmall_l Hsmall_g.
  assert (0 <= Numeral.value level).
  { destruct level; [discriminate Hl|]. now apply value_from_nonneg. }
  assert (0 <= Numeral.value gold).
  { destruct gold; [discriminate Hg|]. now apply value_from_nonneg. }
  unfold Int.to_uint8, Int.to_uint16.
  rewrite !Z.mod_small by lia. reflexivity.
Qed.

Lemma ParserLevelgold_reads_numerals_witness :
  let line := (Numeral.numeral [2; 5; 7] ++ EmptyString)%string
              :: (Numeral.numeral [6; 5; 5; 3; 5] ++ " gold")%string :: ["x"]%string in
  let called := Parser.calls_of (Parser.run (Parser.ParserLevelgold line)) in
  called = [(Numeral.value [2; 5; 7] mod 256, Numeral.value [6; 5; 5; 3; 5] mod 65536)] /\
  (Numeral.value [2; 5; 7] < 256 -> Numeral.value [6; 5; 5; 3; 5] < 65536 ->
   called = [(Numeral.value [2; 5; 7], Numeral.value [6; 5; 5; 3; 5])]).
Proof.
  apply (ParserLevelgold_reads_numerals [2; 5; 7] [6; 5; 5; 3; 5] EmptyString " gold"
           ["x"]%string); try reflexivity; vm_compute; reflexivity.
Defined.

Example ParserLevelgold_level_257 :
  Parser.calls_of (Parser.run (Parser.ParserLevelgold ["257"; "65535 gold"; "x"]%string))
  = [(1, 65535)].
Proof. reflexivity. Qed.

(** ** Shop mapping lines of any length *)

(** X6. [ParserRefmappingshopwithtab] stays inside the vector exactly
    when the line has a first field and either that field does not parse
    to 1, or there is a second field and either it does not parse to 4 or
    the line has at least four fields. *)
Theorem ParserRefmappingshopwithtab_in_bounds_iff (entries : list string) :
  (exists s, Parser.run (Parser.ParserRefmappingshopwithtab entries) = Parser.Ok tt s)
  <->
  exists e0 : string,
    entries !! 0%nat = Some e0 /\
    (Libc.atoi e0 <> 1 \/
     exists e1 : string,
       entries !! 1%nat = Some e1 /\
       (Libc.atoi e1 <> 4 \/ (4 <= length entries)%nat)).
Proof.
  rewrite ParserRefmappingshopwithtab_run.
  destruct entries as [|e0 after0].
  { split; [intros [s Hs]; discriminate Hs | intros (e0 & H & _); discriminate H]. }
  destruct (Z.eqb_spec (Libc.atoi e0) 1) as [H0|H0].
  2:{ split; [intros _ | eauto]. exists e0. split; [reflexivity | now left]. }
  destruct after0 as [|e1 after1].
  { split; [intros [s Hs]; discriminate Hs|].
    intros (x & [= <-] & [Hne | (e1 & H & _)]); [contradiction | discriminate H]. }
  destruct (Z.eqb_spec (Libc.atoi e1) 4) as [H1|H1].
  2:{ split; [intros _ | eauto]. exists e0. split; [reflexivity|]. right.
      exists e1. split; [reflexivity | now left]. }
  destruct after1 as [|e2 [|e3 after3]].
  - split; [intros [s Hs]; discriminate Hs|].
    intros (x & [= <-] & [Hne | (y & [= <-] & [Hne | Hlen])]);
      [contradiction | contradiction | cbn in Hlen; lia].
  - split; [intros [s Hs]; discriminate Hs|].
    intros (x & [= <-] & [Hne | (y & [= <-] & [Hne | Hlen])]);
      [contradiction | contradiction | cbn in Hlen; lia].
  - split; [intros _ | eauto]. exists e0. split; [reflexivity|]. right.
    exists e1. split; [reflexivity|]. right. cbn. lia.
Qed.

(** X7. When [ParserRefmappingshopwithtab] leaves the vector, it does so
    at the first missing field (index [length entries], below 4), after
    reading the fields before it in order, and [func] has not been
    called. *)
Theorem ParserRefmappingshopwithtab_fault (entries : list string) (i : nat)
        (s : Parser.pstate (string * string)) :
  Parser.run (Parser.ParserRefmappingshopwithtab entries) = Parser.OutOfRange i s ->
  i = length entries /\ (i < 4)%nat /\
  Parser.calls s = [] /\ Parser.reads s = seq 0 i /\ Parser.idx s = S i.
Proof.
  rewrite ParserRefmappingshopwithtab_run.
  destruct entries as [|e0 [|e1 [|e2 [|e3 after3]]]];
    repeat match goal with
           | |- context [Libc.atoi ?e =? ?n] => destruct (Libc.atoi e =? n)
           end;
    intros H; try discriminate H;
    injection H as <- <-; cbn; repeat split; lia.
Qed.

Lemma ParserRefmappingshopwithtab_fault_witness :
  3%nat = length ["1"; "4"; "STORE"]%string /\ (3 < 4)%nat /\
  Parser.calls (Parser.mk_pstate (V := string * string) 4 [0; 1; 2]%nat []) = [] /\
  Parser.reads (Parser.mk_pstate (V := string * string) 4 [0; 1; 2]%nat []) = seq 0 3 /\
  Parser.idx (Parser.mk_pstate (V := string * string) 4 [0; 1; 2]%nat []) = 4%nat.
Proof.
  apply (ParserRefmappingshopwithtab_fault ["1"; "4"; "STORE"]%string 3
           (Parser.mk_pstate 4 [0; 1; 2]%nat [])).
  reflexivity.
Defined.

(** X8. [ParserRefmappingshopwithtab] depends on the first four fields
    only: two lines that agree on them are treated alike. *)
Theorem ParserRefmappingshopwithtab_first_four_fields (entries entries' : list string) :
  take 4 entries = take 4 entries' ->
  Parser.run (Parser.ParserRefmappingshopwithtab entries)
  = Parser.run (Parser.ParserRefmappingshopwithtab entries').
Proof.
  rewrite !ParserRefmappingshopwithtab_run.
  destruct entries as [|e0 [|e1 [|e2 [|e3 after3]]]],
           entries' as [|e0' [|e1' [|e2' [|e3' after3']]]];
    intros H; simplify_eq/=; reflexivity.
Qed.

Lemma ParserRefmappingshopwithtab_first_four_fields_witness :
  Parser.run (Parser.ParserRefmappingshopwithtab ["1"; "4"; "STORE"; "TAB"; "0"; "x"]%string)
  = Parser.run (Parser.ParserRefmappingshopwithtab ["1"; "4"; "STORE"; "TAB"]%string).
Proof.
  apply (ParserRefmappingshopwithtab_first_four_fields
           ["1"; "4"; "STORE"; "TAB"; "0"; "x"]%string ["1"; "4"; "STORE"; "TAB"]%string).
  reflexivity.
Defined.

(** X9. Both parsers read the fields in order from the first, without
    skipping or rereading one, at most two (level and gold) and four (shop
    mapping) of them, and call [func] only after the last of these was
    read. *)
Theorem parsers_read_in_order (entries : list string) :
  let gold := Parser.run (Parser.ParserLevelgold entries) in
  let shop := Parser.run (Parser.ParserRefmappingshopwithtab entries) in
  (Parser.reads_of gold = seq 0 (length (Parser.reads_of gold)) /\
   (length (Parser.reads_of gold) <= 2)%nat /\
   (Parser.calls_of gold <> [] -> Parser.reads_of gold = [0; 1]%nat)) /\
  (Parser.reads_of shop = seq 0 (length (Parser.reads_of shop)) /\
   (length (Parser.reads_of shop) <= 4)%nat /\
   (Parser.calls_of shop <> [] -> Parser.reads_of shop = [0; 1; 2; 3]%nat)).
Proof.
  cbv zeta. rewrite ParserLevelgold_run, ParserRefmappingshopwithtab_run. split.
  - destruct entries as [|e0 [|e1 rest]]; cbn -[Int.to_uint8 Int.to_uint16 Libc.atoi];
      (split; [reflexivity|]); (split; [lia|]); congruence.
  - destruct entries as [|e0 [|e1 [|e2 [|e3 after3]]]];
      repeat match goal with
             | |- context [Libc.atoi ?e =? ?n] => destruct (Libc.atoi e =? n)
             end;
      cbn; (split; [reflexivity|]); (split; [lia|]); congruence.
Qed.

(** X10. A line whose first two fields begin with decimal numerals (below
    2^31), followed by two more fields, makes
    [ParserRefmappingshopwithtab] call [func] with those two fields as they
    are exactly when the numerals denote 1 and 4, however they are written
    (leading zeros, text after the digits); otherwise [func] is not
    called. *)
Theorem ParserRefmappingshopwithtab_reads_numerals
        (service kind : list Z) (tail0 tail1 shop tab : string) (rest : list string) :
  Numeral.is_numeral service = true ->
  Numeral.is_numeral kind = true ->
  Numeral.ends_number tail0 = true ->
  Numeral.ends_number tail1 = true ->
  Numeral.value service < 2 ^ 31 ->
  Numeral.value kind < 2 ^ 31 ->
  Parser.calls_of
    (Parser.run (Parser.ParserRefmappingshopwithtab
                   ((Numeral.numeral service ++ tail0)%string
                    :: (Numeral.numeral kind ++ tail1)%string :: shop :: tab :: rest)))
  = if (Numeral.value service =? 1) && (Numeral.value kind =? 4)
    then [(shop, tab)] else [].
Proof.
  intros Hs Hk Ht0 Ht1 Hfs Hfk.
  rewrite ParserRefmappingshopwithtab_run.
  rewrite (atoi_numeral service tail0 Hs Ht0 Hfs), (atoi_numeral kind tail1 Hk Ht1 Hfk).
  destruct (Numeral.value service =? 1); [|reflexivity].
  destruct (Numeral.value kind =? 4); reflexivity.
Qed.

Lemma ParserRefmappingshopwithtab_reads_numerals_witness :
  Parser.calls_of
    (Parser.run (Parser.ParserRefmappingshopwithtab
                   ((Numeral.numeral [0; 1] ++ EmptyString)%string
                    :: (Numeral.numeral [4] ++ " ")%string
                    :: "STORE_CH_POTION"%string :: "TAB1"%string :: [])))
  = if (Numeral.value [0; 1] =? 1) && (Numeral.value [4] =? 4)
    then [("STORE_CH_POTION", "TAB1")]%string else [].
Proof.
  apply (ParserRefmappingshopwithtab_reads_numerals [0; 1] [4] EmptyString " "
           "STORE_CH_POTION" "TAB1" []); try reflexivity; vm_compute; reflexivity.
Defined.

(** * Further properties of the IP filter *)

Lemma append_cons (c : ascii) (a b : string) :
  (String c a ++ b)%string = String c (a ++ b)%string.
Proof. reflexivity. Qed.

Lemma append_assoc (a b c : string) :
  ((a ++ b) ++ c)%string = (a ++ (b ++ c))%string.
Proof.
  induction a as [|x a IH]; [reflexivity|].
  rewrite !append_cons. now rewrite IH.
Qed.

Lemma append_empty (a : string) : (a ++ EmptyString)%string = a.
Proof. induction a as [|x a IH]; [reflexivity|]. rewrite append_cons. now rewrite IH. Qed.

Lemma literal_end_escape_char (c : ascii) (after : string) :
  Sql.literal_end (DB.escape_char c ++ after)%string = Sql.literal_end after.
Proof.
  destruct c as [[] [] [] [] [] [] [] []]; reflexivity.
Qed.

Lemma unescape_escape_char (c : ascii) (after : string) :
  Sql.unescape (DB.escape_char c ++ after)%string = String c <$> Sql.unescape after.
Proof.
  destruct c as [[] [] [] [] [] [] [] []]; reflexivity.
Qed.

Lemma literal_end_escape (s after : string) :
  Sql.literal_end (DB.escape s ++ after)%string = Sql.literal_end after.
Proof.
  induction s as [|c s IH]; [reflexivity|].
  cbn [DB.escape]. rewrite append_assoc, literal_end_escape_char.
  exact IH.
Qed.

Lemma unescape_escape (s : string) : Sql.unescape (DB.escape s) = Some s.
Proof.
  induction s as [|c s IH]; [reflexivity|].
  cbn [DB.escape]. rewrite unescape_escape_char, IH. reflexivity.
Qed.

Lemma escape_inj (a b : string) : DB.escape a = DB.escape b -> a = b.
Proof.
  intros H. apply (f_equal Sql.unescape) in H.
  rewrite !unescape_escape in H. now injection H.
Qed.

Lemma append_inv_head (p a b : string) : (p ++ a)%string = (p ++ b)%string -> a = b.
Proof.
  induction p as [|c p IH]; [trivial|].
  rewrite !append_cons. intros [= H]. now apply IH.
Qed.

Lemma string_length_append (a b : string) :
  String.length (a ++ b)%string = (String.length a + String.length b)%nat.
Proof.
  induction a as [|c a IH]; [reflexivity|].
  rewrite append_cons. cbn [String.length]. now rewrite IH.
Qed.

Lemma append_inv_tail (a b t : string) : (a ++ t)%string = (b ++ t)%string -> a = b.
Proof.
  revert b. induction a as [|c a IH]; intros [|d b] H.
  - reflexivity.
  - change (t = String d (b ++ t)%string) in H.
    apply (f_equal String.length) in H.
    cbn [String.length] in H. rewrite string_length_append in H. lia.
  - change (String c (a ++ t)%string = t) in H.
    apply (f_equal String.length) in H.
    cbn [String.length] in H. rewrite string_length_append in H. lia.
  - rewrite !append_cons in H. injection H as -> H. f_equal. now apply IH.
Qed.

Lemma select_text_inj (a b : string) :
  DB.IP.select_text a = DB.IP.select_text b -> a = b.
Proof.
  unfold DB.IP.select_text. intros H.
  apply append_inv_head, append_inv_head, append_inv_tail in H.
  now apply escape_inj.
Qed.

Lemma Filter_sends (conn : DB.Connection) (ip : string) :
  DB.executed (DB.IP.Filter conn ip).2 = DB.executed conn ++ [DB.IP.select_text ip] /\
  DB.server (DB.IP.Filter conn ip).2 = DB.server conn /\
  (DB.IP.Filter conn ip).1 = negb (DB.server conn (DB.IP.select_text ip) =? 0)%N.
Proof.
  unfold DB.IP.Filter, DB.exec, DB.affected_rows.
  rewrite Filter_statement. cbn [DB.reported DB.text].
  destruct (DB.server conn (DB.IP.select_text ip) =? 0)%N; repeat split.
Qed.

(** X11. Whatever characters the IP string holds, the statement the filter
    sends is the select followed by one string literal: the quote the
    filter writes last is the one that closes the literal, nothing follows
    it, and the literal stands for the IP string itself. *)
Theorem Filter_literal_is_the_address (conn : DB.Connection) (ip : string) :
  exists body : string,
    last (DB.executed (DB.IP.Filter conn ip).2)
    = Some ("select * from ip_filter where ip = '" ++ body ++ "'")%string /\
    Sql.literal_end (body ++ "'")%string = Some EmptyString /\
    Sql.unescape body = Some ip.
Proof.
  exists (DB.escape ip).
  destruct (Filter_sends conn ip) as (Hlog & _ & _).
  rewrite Hlog, last_snoc. split; [reflexivity|]. split.
  - rewrite literal_end_escape. reflexivity.
  - apply unescape_escape.
Qed.

(** X12. Two calls of the filter send the same statement only for the same
    IP string: no two addresses are looked up under the same text. *)
Theorem Filter_statement_identifies_address
        (conn conn' : DB.Connection) (a b : string) :
  last (DB.executed (DB.IP.Filter conn a).2)
  = last (DB.executed (DB.IP.Filter conn' b).2) ->
  a = b.
Proof.
  destruct (Filter_sends conn a) as (Ha & _ & _).
  destruct (Filter_sends conn' b) as (Hb & _ & _).
  rewrite Ha, Hb, !last_snoc. intros H.
  apply select_text_inj. congruence.
Qed.

Lemma Filter_statement_identifies_address_witness :
  last (DB.executed (DB.IP.Filter (DB.mk_connection (fun _ => 0%N) []) "10.0.0.7").2)
  = last (DB.executed
            (DB.IP.Filter (DB.mk_connection (fun _ => 1%N) ["select 1"%string])
                          "10.0.0.7").2) /\
  "10.0.0.7"%string = "10.0.0.7"%string.
Proof.
  split; [reflexivity|].
  apply (Filter_statement_identifies_address
           (DB.mk_connection (fun _ => 0%N) [])
           (DB.mk_connection (fun _ => 1%N) ["select 1"%string])
           "10.0.0.7" "10.0.0.7").
  reflexivity.
Defined.

Example Filter_hostile_address :
  let ip := "' or 1=1 -- "%string in
  Sql.literal_end (DB.escape ip ++ "'")%string = Some EmptyString /\
  Sql.literal_end (ip ++ "'")%string = Some " or 1=1 -- '"%string.
Proof. split; reflexivity. Qed.
